(** * Package [log] of minipkg/log: a shallow embedding of logger.go

    The development follows the source file top to bottom.  The Go
    libraries that logger.go calls (context, net/http, uuid, zap, fmt,
    pkg/errors) are modelled only as far as logger.go observes them:

    - an [interface{}] value is an element of [value];
    - a [*logger] is an address into the list of allocated logger
      structs of the [state]; a Go panic (nil dereference) is [None];
    - a [context.Context] is its chain of [WithValue] layers;
    - what a logger hands to the zap engine is recorded, call by call,
      in the [out] component of the state. *)

From Stdlib Require Import ZArith String Ascii List Lia.
From stdpp Require Import gmap strings list pretty.

Local Open Scope string_scope.
Local Open Scope list_scope.

(** ** Dynamic values *)

Module zapcore.

(** zapcore.Level, an int8 enumeration starting at -1. *)
Inductive Level :=
| DebugLevel | InfoLevel | WarnLevel | ErrorLevel
| DPanicLevel | PanicLevel | FatalLevel.

Definition Level_int (l : Level) : Z :=
  match l with
  | DebugLevel => -1 | InfoLevel => 0 | WarnLevel => 1 | ErrorLevel => 2
  | DPanicLevel => 3 | PanicLevel => 4 | FatalLevel => 5
  end.

Inductive FieldType := UnknownType | BoolType | Int64Type | StringType.

(** zapcore.Field without its [Interface] slot, which logger.go never
    fills. *)
Record Field := mkField
  { Key : string; Type_ : FieldType; Integer : Z; String_ : string }.

(** [func (l *Level) unmarshalText(text []byte) bool]: the switch over
    the level tokens; the empty text is the info level. *)
Definition unmarshalText (text : string) : option Level :=
  if bool_decide (text ∈ ["debug"; "DEBUG"]) then Some DebugLevel
  else if bool_decide (text ∈ ["info"; "INFO"; ""]) then Some InfoLevel
  else if bool_decide (text ∈ ["warn"; "WARN"]) then Some WarnLevel
  else if bool_decide (text ∈ ["error"; "ERROR"]) then Some ErrorLevel
  else if bool_decide (text ∈ ["dpanic"; "DPANIC"]) then Some DPanicLevel
  else if bool_decide (text ∈ ["panic"; "PANIC"]) then Some PanicLevel
  else if bool_decide (text ∈ ["fatal"; "FATAL"]) then Some FatalLevel
  else None.

End zapcore.

(** The values an [interface{}] holds in this development.  A nil slice
    and an empty slice are both [VSlice []]. *)
#[warnings="-register-all"]
Inductive value :=
| VNil
| VBool (b : bool)
| VInt (n : Z)
| VString (s : string)
| VField (f : zapcore.Field)
| VSlice (vs : list value).

(** The type assertion [v.(string)] in its two-result form. *)
Definition assert_string (v : value) : string * bool :=
  match v with
  | VString s => (s, true)
  | _ => ("", false)
  end.

(** ** Package fmt, as far as the log methods need it

    [Sprint] and [Sprintf] on booleans, integers, strings, nil and
    [[]interface{}] slices with the verbs [%v], [%s], [%d] and [%%].
    Outside of that fragment (a struct operand, another verb, flags or a
    width) the functions answer [None]: the text is not modelled. *)
Module fmt.

Inductive verb := verb_v | verb_s | verb_d.

Definition verb_char (vb : verb) : string :=
  match vb with verb_v => "v" | verb_s => "s" | verb_d => "d" end.

Definition typeString (v : value) : string :=
  match v with
  | VNil => "<nil>"
  | VBool _ => "bool"
  | VInt _ => "int"
  | VString _ => "string"
  | VField _ => "zapcore.Field"
  | VSlice _ => "[]interface {}"
  end.

Definition fmtBool (b : bool) : string := if b then "true" else "false".

(** [badVerb]: [%!verb(type=value)], the value printed with [%v]. *)
Definition badVerb (vb : verb) (ty shown : string) : string :=
  "%!" +:+ verb_char vb +:+ "(" +:+ ty +:+ "=" +:+ shown +:+ ")".

(** [printValue]; [depth] is 0 for an operand and positive inside a
    slice, where a nil element prints as [<nil>] under every verb. *)
Fixpoint printValue (vb : verb) (depth : nat) (v : value) {struct v}
  : option string :=
  match v with
  | VNil =>
      match depth, vb with
      | O, verb_v => Some "<nil>"
      | O, _ => Some ("%!" +:+ verb_char vb +:+ "(<nil>)")
      | S _, _ => Some "<nil>"
      end
  | VBool b =>
      match vb with
      | verb_v => Some (fmtBool b)
      | _ => Some (badVerb vb "bool" (fmtBool b))
      end
  | VInt n =>
      match vb with
      | verb_v | verb_d => Some (pretty n)
      | verb_s => Some (badVerb vb "int" (pretty n))
      end
  | VString s =>
      match vb with
      | verb_v | verb_s => Some s
      | verb_d => Some (badVerb vb "string" s)
      end
  | VField _ => None
  | VSlice vs =>
      body ← (fix elems (i : nat) (vs : list value) : option string :=
                match vs with
                | [] => Some ""
                | x :: rest =>
                    s ← printValue vb (S depth) x;
                    r ← elems (S i) rest;
                    Some ((if (0 <? i)%nat then " " else "") +:+ s +:+ r)
                end) O vs;
      Some ("[" +:+ body +:+ "]")
  end.

Definition printArg (vb : verb) (arg : value) : option string :=
  printValue vb 0 arg.

Definition isString (arg : value) : bool :=
  match arg with VString _ => true | _ => false end.

(** [doPrint]: a space goes between two operands when neither is a
    string. *)
Fixpoint doPrint (argNum : nat) (prevString : bool) (a : list value)
  : option string :=
  match a with
  | [] => Some ""
  | arg :: rest =>
      s ← printArg verb_v arg;
      r ← doPrint (S argNum) (isString arg) rest;
      Some ((if (0 <? argNum)%nat && negb (isString arg) && negb prevString
             then " " else "") +:+ s +:+ r)
  end.

Definition Sprint (a : list value) : option string := doPrint 0 false a.

(** The [%!(EXTRA type=value, ...)] suffix for unused operands. *)
Fixpoint extraArgs (i : nat) (a : list value) : option string :=
  match a with
  | [] => Some ""
  | arg :: rest =>
      s ← match arg with
          | VNil => Some "<nil>"
          | _ => shown ← printArg verb_v arg;
                 Some (typeString arg +:+ "=" +:+ shown)
          end;
      r ← extraArgs (S i) rest;
      Some ((if (0 <? i)%nat then ", " else "") +:+ s +:+ r)
  end.

Definition extra (a : list value) : option string :=
  match a with
  | [] => Some ""
  | _ => s ← extraArgs 0 a; Some ("%!(EXTRA " +:+ s +:+ ")")
  end.

Definition verb_of (c : ascii) : option verb :=
  if decide (c = "v"%char) then Some verb_v
  else if decide (c = "s"%char) then Some verb_s
  else if decide (c = "d"%char) then Some verb_d
  else None.

(** [doPrintf] on the fragment. *)
Fixpoint doPrintf (format : string) (a : list value) : option string :=
  match format with
  | EmptyString => extra a
  | String c rest =>
      if decide (c = "%"%char) then
        match rest with
        | EmptyString => r ← extra a; Some ("%!(NOVERB)" +:+ r)
        | String c' rest' =>
            if decide (c' = "%"%char) then
              r ← doPrintf rest' a; Some ("%" +:+ r)
            else
              vb ← verb_of c';
              match a with
              | [] =>
                  r ← doPrintf rest' [];
                  Some ("%!" +:+ verb_char vb +:+ "(MISSING)" +:+ r)
              | arg :: a' =>
                  s ← printArg vb arg;
                  r ← doPrintf rest' a';
                  Some (s +:+ r)
              end
        end
      else r ← doPrintf rest a; Some (String c r)
  end.

Definition Sprintf (format : string) (a : list value) : option string :=
  doPrintf format a.

End fmt.

(** ** Package context

    Keys are compared with Go's [==] on interface values: two keys are
    equal when their dynamic types and their contents both agree.  The
    private type [contextKey] of logger.go is one such type; the plain
    [int] and [string] keys stand for the keys of other packages. *)
Module context.

Inductive key :=
| contextKey (n : Z)
| intKey (n : Z)
| stringKey (s : string).

#[global] Instance key_eq_dec : EqDecision key.
Proof. solve_decision. Defined.

(** A context is [context.Background()] or a [valueCtx] layer over a
    parent. *)
Inductive Context :=
| Background
| WithValue (parent : Context) (k : key) (val : value).

(** [ctx.Value(key)]: the innermost layer with an equal key, nil when
    there is none. *)
Fixpoint Value (ctx : Context) (k : key) : value :=
  match ctx with
  | Background => VNil
  | WithValue parent k' val =>
      if decide (k' = k) then val else Value parent k
  end.

End context.

(** ** Package net/http: request headers *)
Module http.

Definition is_upper (c : ascii) : bool :=
  (65 <=? nat_of_ascii c)%nat && (nat_of_ascii c <=? 90)%nat.
Definition is_lower (c : ascii) : bool :=
  (97 <=? nat_of_ascii c)%nat && (nat_of_ascii c <=? 122)%nat.
Definition is_digit (c : ascii) : bool :=
  (48 <=? nat_of_ascii c)%nat && (nat_of_ascii c <=? 57)%nat.
Definition to_upper (c : ascii) : ascii :=
  if is_lower c then ascii_of_nat (nat_of_ascii c - 32) else c.
Definition to_lower (c : ascii) : ascii :=
  if is_upper c then ascii_of_nat (nat_of_ascii c + 32) else c.

(** [validHeaderFieldByte]: the token characters of RFC 7230. *)
Definition validHeaderFieldByte (c : ascii) : bool :=
  is_upper c || is_lower c || is_digit c
  || bool_decide (c ∈ list_ascii_of_string "!#$%&'*+-.^_`|~").

Fixpoint canonical (upper : bool) (s : string) : string :=
  match s with
  | EmptyString => EmptyString
  | String c rest =>
      String (if upper then to_upper c else to_lower c)
             (canonical (bool_decide (c = "-"%char)) rest)
  end.

(** [textproto.CanonicalMIMEHeaderKey]: the first letter and every
    letter after a hyphen in upper case, the others in lower case; a
    key with a byte outside the token characters is returned as is. *)
Definition CanonicalMIMEHeaderKey (s : string) : string :=
  if forallb validHeaderFieldByte (list_ascii_of_string s)
  then canonical true s else s.

Record Request := { Header : gmap string (list string) }.

(** [Header.Get]: the first value under the canonical form of the key,
    the empty string when there is none. *)
Definition Header_Get (h : gmap string (list string)) (key : string)
  : string :=
  match h !! CanonicalMIMEHeaderKey key with
  | Some (v :: _) => v
  | _ => ""
  end.

End http.

(** ** Package uuid: random (version 4) identifiers

    The random source is a stream of bytes [rnd]; byte [i] of a read is
    [rnd i] reduced to eight bits. *)
Module uuid.

Definition hextable : string := "0123456789abcdef".

Definition hexdigit (n : Z) : ascii :=
  default "0"%char (String.get (Z.to_nat n) hextable).

(** [hex.Encode]: two digits for each byte, high nibble first. *)
Fixpoint hex_Encode (src : list Z) : string :=
  match src with
  | [] => EmptyString
  | v :: rest =>
      String (hexdigit (Z.shiftr v 4))
             (String (hexdigit (Z.land v 15)) (hex_Encode rest))
  end.

Definition read16 (rnd : nat → Z) : list Z :=
  map (λ i, Z.land (rnd i) 255) (seq 0 16).

Definition set_byte (i : nat) (f : Z → Z) (u : list Z) : list Z :=
  match u !! i with
  | Some b => <[i := f b]> u
  | None => u
  end.

(** [NewRandom]: sixteen random bytes with the version and the variant
    bits forced. *)
Definition New (rnd : nat → Z) : list Z :=
  let uuid := read16 rnd in
  let uuid := set_byte 6 (λ b, Z.lor (Z.land b 15) 64) uuid in
  let uuid := set_byte 8 (λ b, Z.lor (Z.land b 63) 128) uuid in
  uuid.



(** [UUID.String]: xxxxxxxx-xxxx-xxxx-xxxx-xxxxxxxxxxxx. *)
Definition String (uuid : list Z) : string :=
  hex_Encode (take 4 uuid) +:+ "-" +:+
  hex_Encode (take 2 (drop 4 uuid)) +:+ "-" +:+
  hex_Encode (take 2 (drop 6 uuid)) +:+ "-" +:+
  hex_Encode (take 2 (drop 8 uuid)) +:+ "-" +:+
  hex_Encode (drop 10 uuid).

End uuid.

(** ** Package zap, as seen from logger.go *)
Module zap.

(** A [*zap.Logger], the raw engine, is known by its address. *)
Definition Logger : Type := nat.

(** A [*zap.SugaredLogger]: the engine it was made from and the
    arguments of every [With] since, in order.  How the engine reads
    that argument list (pairing names with values) is its own
    business. *)
Record SugaredLogger := { base : Logger; fields : list value }.

Definition Sugar (l : Logger) : SugaredLogger :=
  {| base := l; fields := [] |}.

Definition SugaredLogger_With (s : SugaredLogger) (args : list value)
  : SugaredLogger :=
  {| base := base s; fields := fields s ++ args |}.

(** One call of [s.log(lvl, template, fmtArgs, nil)]. *)
Record entry :=
  { e_base : Logger;
    e_fields : list value;
    e_level : zapcore.Level;
    e_template : string;
    e_fmtArgs : list value }.

Definition SugaredLogger_log (s : SugaredLogger) (lvl : zapcore.Level)
  (template : string) (fmtArgs : list value) : entry :=
  {| e_base := base s; e_fields := fields s; e_level := lvl;
     e_template := template; e_fmtArgs := fmtArgs |}.

(** The text [log] gives an entry: the template alone when there is no
    operand, [Sprint] of the operands under the empty template, [Sprintf]
    otherwise. *)
Definition format_message (template : string) (fmtArgs : list value)
  : option string :=
  match fmtArgs with
  | [] => Some template
  | _ =>
      if bool_decide (template = "") then fmt.Sprint fmtArgs
      else fmt.Sprintf template fmtArgs
  end.

Definition message (e : entry) : option string :=
  format_message (e_template e) (e_fmtArgs e).

Inductive Encoder :=
| LowercaseLevelEncoder | ISO8601TimeEncoder | FullCallerEncoder.

(** zapcore.EncoderConfig; a nil encoder function is [None]. *)
Record EncoderConfig_t :=
  { MessageKey : string; LevelKey : string; TimeKey : string;
    NameKey : string; CallerKey : string; StacktraceKey : string;
    LineEnding : string;
    EncodeLevel : option Encoder; EncodeTime : option Encoder;
    EncodeDuration : option Encoder; EncodeCaller : option Encoder;
    EncodeName : option Encoder }.

(** zap.AtomicLevel: a pointer to an atomic integer, nil in the zero
    value. *)
Record AtomicLevel := { l : option nat }.

(** zap.Config, the fields logger.go sets; [InitialFields] is a map
    reference (nil or the address of a map). *)
Record Config :=
  { Level : AtomicLevel;
    Encoding : string;
    EncoderConfig : EncoderConfig_t;
    OutputPaths : list string;
    InitialFields : option nat }.

(** [zap.String(key, val)]. *)
Definition String (key val : string) : zapcore.Field :=
  {| zapcore.Key := key; zapcore.Type_ := zapcore.StringType;
     zapcore.Integer := 0; zapcore.String_ := val |}.

End zap.

(** ** logger.go *)

(** [type logger struct]: the embedded sugared logger and the raw
    engine. *)
Record logger :=
  { SugaredLogger : zap.SugaredLogger; zapLogger : zap.Logger }.

(** [const ( requestIDKey contextKey = iota; correlationIDKey )] *)
Definition requestIDKey : context.key := context.contextKey 0.
Definition correlationIDKey : context.key := context.contextKey 1.

Definition defaultZapConfig : zap.Config :=
  {| zap.Level := {| zap.l := None |};
     zap.Encoding := "json";
     zap.EncoderConfig :=
       {| zap.MessageKey := "message";
          zap.LevelKey := "level";
          zap.TimeKey := "time";
          zap.NameKey := "logger";
          zap.CallerKey := "caller";
          zap.StacktraceKey := "";
          zap.LineEnding := "";
          zap.EncodeLevel := Some zap.LowercaseLevelEncoder;
          zap.EncodeTime := Some zap.ISO8601TimeEncoder;
          zap.EncodeDuration := None;
          zap.EncodeCaller := Some zap.FullCallerEncoder;
          zap.EncodeName := None |};
     zap.OutputPaths := [];
     zap.InitialFields := None |}.

(** [type Config struct]; [InitialFields] is a map reference. *)
Record Config :=
  { Encoding : string;
    OutputPaths : list string;
    Level : string;
    InitialFields : option nat }.

(** ** Errors (fmt.Errorf and pkg/errors.Wrapf)

    An error keeps its format and its operands.  Its message is a list
    of pieces: the literal text of the formats, and for each verb the
    operand it formats. *)
Module errors.

Inductive arg :=
| AString (s : string)
| AConfig (c : Config)
| AZapConfig (c : zap.Config).

Inductive error :=
| Errorf (format : string) (args : list arg)
| Wrapf (err : error) (format : string) (args : list arg)
| External (msg : string).

Inductive piece :=
| Lit (s : string)
| Verb (verb : string) (operand : option arg).

Definition flush (lit : string) : list piece :=
  match lit with EmptyString => [] | _ => [Lit lit] end.

Definition chr (c : ascii) : string := String c EmptyString.

(** The pieces of [Sprintf(format, args...)]; [lit] is the literal
    text read since the last verb.  A verb is one character, with an
    optional [#] flag before it. *)
Fixpoint pieces (format lit : string) (args : list arg) : list piece :=
  match format with
  | EmptyString => flush lit
  | String c rest =>
      if decide (c = "%"%char) then
        match rest with
        | EmptyString => flush lit ++ [Verb "" None]
        | String c1 rest1 =>
            if decide (c1 = "%"%char) then pieces rest1 (lit +:+ "%") args
            else if decide (c1 = "#"%char) then
              match rest1 with
              | EmptyString => flush lit ++ [Verb "#" None]
              | String c2 rest2 =>
                  flush lit ++ Verb ("#" +:+ chr c2) (head args)
                    :: pieces rest2 "" (tail args)
              end
            else
              flush lit ++ Verb (chr c1) (head args)
                :: pieces rest1 "" (tail args)
        end
      else pieces rest (lit +:+ chr c) args
  end.

(** [err.Error()]: a wrapped error prints its own message, a colon and
    the cause. *)
Fixpoint Error (err : error) : list piece :=
  match err with
  | Errorf format args => pieces format "" args
  | Wrapf cause format args =>
      pieces format "" args ++ Lit ": " :: Error cause
  | External msg => [Lit msg]
  end.

End errors.

(** ** The store and the monad of effects

    [loggers]: the logger structs allocated so far, a [*logger] being an
    index; [out]: the calls handed to the engine, oldest first; [maps]:
    the Go maps allocated so far; [levels]: the atomic level cells. *)
Record state :=
  { loggers : list logger;
    out : list zap.entry;
    maps : list (gmap string value);
    levels : list Z }.

(** A computation reads and writes the store and may panic ([None]). *)
Definition M (A : Type) : Type := state → option (A * state).

#[export] Instance M_ret : MRet M := λ A x st, Some (x, st).

#[export] Instance M_bind : MBind M :=
  λ A B f m st, match m st with
                | Some (x, st') => f x st'
                | None => None
                end.

Definition panic {A} : M A := λ _, None.

(** [*l] for a [*logger]. *)
Definition deref (l : nat) : M logger :=
  λ st, match loggers st !! l with
        | Some lg => Some (lg, st)
        | None => None
        end.

(** [&logger{...}]: a fresh address. *)
Definition alloc (lg : logger) : M nat :=
  λ st, Some (length (loggers st),
              {| loggers := loggers st ++ [lg]; out := out st;
                 maps := maps st; levels := levels st |}).

Definition emit (e : zap.entry) : M unit :=
  λ st, Some (tt, {| loggers := loggers st; out := out st ++ [e];
                     maps := maps st; levels := levels st |}).

(** [make(map[string]interface{}, n)]: a fresh empty map. *)
Definition make_map : M nat :=
  λ st, Some (length (maps st),
              {| loggers := loggers st; out := out st;
                 maps := maps st ++ [∅]; levels := levels st |}).

(** The entries of a map reference; a nil map reads as empty. *)
Definition map_entries (st : state) (r : option nat) : gmap string value :=
  match r with
  | Some a => default ∅ (maps st !! a)
  | None => ∅
  end.

(** [m[key] = val] on the map at address [m]. *)
Definition map_assign (m : nat) (key : string) (val : value) (st : state)
  : state :=
  {| loggers := loggers st; out := out st;
     maps := alter (λ entries, <[key := val]> entries) m (maps st);
     levels := levels st |}.

(** [for key, val := range src { m[key] = val }] *)
Definition copy_entries (src : option nat) (m : nat) : M unit :=
  λ st, Some (tt, map_fold (λ key val st', map_assign m key val st')
                    st (map_entries st src)).

(** [&atomic.Int32{}] *)
Definition new_level : M nat :=
  λ st, Some (length (levels st),
              {| loggers := loggers st; out := out st;
                 maps := maps st; levels := levels st ++ [0%Z] |}).

(** [lvl.SetLevel(l)] on the cell at address [a]. *)
Definition store_level (a : nat) (lv : zapcore.Level) : M unit :=
  λ st, Some (tt, {| loggers := loggers st; out := out st;
                     maps := maps st;
                     levels := <[a := zapcore.Level_int lv]> (levels st) |}).

(** *** The log methods promoted from the embedded [*zap.SugaredLogger] *)

Definition log (l : nat) (lvl : zapcore.Level) (template : string)
  (fmtArgs : list value) : M unit :=
  lg ← deref l;
  emit (zap.SugaredLogger_log (SugaredLogger lg) lvl template fmtArgs).

Definition Debug (l : nat) (args : list value) : M unit :=
  log l zapcore.DebugLevel "" args.
Definition Info (l : nat) (args : list value) : M unit :=
  log l zapcore.InfoLevel "" args.
Definition Error (l : nat) (args : list value) : M unit :=
  log l zapcore.ErrorLevel "" args.
Definition Debugf (l : nat) (format : string) (args : list value) : M unit :=
  log l zapcore.DebugLevel format args.
Definition Infof (l : nat) (format : string) (args : list value) : M unit :=
  log l zapcore.InfoLevel format args.
Definition Errorf (l : nat) (format : string) (args : list value) : M unit :=
  log l zapcore.ErrorLevel format args.

(** [func (l *logger) Print(v ...interface{}) { l.Debug(v) }]: the
    slice [v] is handed over as one operand. *)
Definition Print (l : nat) (v : list value) : M unit :=
  Debug l [VSlice v].

(** [func (l *logger) Printf(format string, v ...interface{})
    { l.Debugf(format, v) }] *)
Definition Printf (l : nat) (format : string) (v : list value) : M unit :=
  Debugf l format [VSlice v].

(** *** Construction *)

(** [NewWithZap] *)
Definition NewWithZap (l : zap.Logger) : M nat :=
  alloc {| SugaredLogger := zap.Sugar l; zapLogger := l |}.

(** [func (l *logger) ZapLogger() *zap.Logger] *)
Definition ZapLogger (l : nat) : M zap.Logger :=
  lg ← deref l; mret (zapLogger lg).

Section Construction.

(** [bytes.ToLower], and [cfg.Build()], which answers an engine or an
    error of the environment. *)
Variable ToLower : string → string.
Variable Build : zap.Config → zap.Logger + errors.error.

(** [func (l *Level) UnmarshalText(text []byte) error], the parsed
    level on success. *)
Definition Level_UnmarshalText (text : string)
  : zapcore.Level + errors.error :=
  match zapcore.unmarshalText text with
  | Some lv => inl lv
  | None =>
      match zapcore.unmarshalText (ToLower text) with
      | Some lv => inl lv
      | None =>
          inr (errors.Errorf "unrecognized level: %q" [errors.AString text])
      end
  end.

(** [func (lvl *AtomicLevel) UnmarshalText(text []byte) error]: the
    receiver as it is afterwards, and the error. *)
Definition AtomicLevel_UnmarshalText (lvl : zap.AtomicLevel)
  (text : string) : M (zap.AtomicLevel * option errors.error) :=
  a ← match zap.l lvl with
      | Some a => mret a
      | None => new_level
      end;
  let lvl := {| zap.l := Some a |} in
  match Level_UnmarshalText text with
  | inr err => mret (lvl, Some err)
  | inl lv => _ ← store_level a lv; mret (lvl, None)
  end.

Definition configToZapConfig (conf : Config)
  : M (zap.Config * option errors.error) :=
  let cfg := defaultZapConfig in
  let cfg := {| zap.Level := zap.Level cfg; zap.Encoding := zap.Encoding cfg;
                zap.EncoderConfig := zap.EncoderConfig cfg;
                zap.OutputPaths := OutputPaths conf;
                zap.InitialFields := zap.InitialFields cfg |} in
  let cfg := {| zap.Level := zap.Level cfg; zap.Encoding := Encoding conf;
                zap.EncoderConfig := zap.EncoderConfig cfg;
                zap.OutputPaths := zap.OutputPaths cfg;
                zap.InitialFields := zap.InitialFields cfg |} in
  m ← make_map;
  let cfg := {| zap.Level := zap.Level cfg; zap.Encoding := zap.Encoding cfg;
                zap.EncoderConfig := zap.EncoderConfig cfg;
                zap.OutputPaths := zap.OutputPaths cfg;
                zap.InitialFields := Some m |} in
  _ ← copy_entries (InitialFields conf) m;
  '(lvl, err) ← AtomicLevel_UnmarshalText (zap.Level cfg) (Level conf);
  let cfg := {| zap.Level := lvl; zap.Encoding := zap.Encoding cfg;
                zap.EncoderConfig := zap.EncoderConfig cfg;
                zap.OutputPaths := zap.OutputPaths cfg;
                zap.InitialFields := zap.InitialFields cfg |} in
  match err with
  | Some err =>
      mret (cfg, Some (errors.Wrapf err
             "Can not unmarshal text %q, expected one of zapcore.Levels"
             [errors.AString (Level conf)]))
  | None => mret (cfg, None)
  end.

Definition convert_format : string :=
  "Can not convert conf to zap conf;"
    +:+ String (ascii_of_nat 10) "conf: %v".

Definition build_format : string := "Can not build loger by cfg: %#v".

(** The literal text the two formats start with. *)
Definition convert_prefix : string :=
  "Can not convert conf to zap conf;" +:+ String (ascii_of_nat 10) "conf: ".

Definition build_prefix : string := "Can not build loger by cfg: ".

(** [func New(conf Config)], which answers a [*logger] and an error; a
    nil logger is [None]. *)
Definition New (conf : Config) : M (option nat * option errors.error) :=
  '(cfg, err) ← configToZapConfig conf;
  match err with
  | Some err =>
      mret (None, Some (errors.Wrapf err convert_format [errors.AConfig conf]))
  | None =>
      match Build cfg with
      | inr err =>
          mret (None,
               Some (errors.Wrapf err build_format [errors.AZapConfig cfg]))
      | inl zapLogger =>
          logger ← NewWithZap zapLogger;
          _ ← Info logger [VString "Logger construction succeeded"];
          mret (Some logger, None)
      end
  end.

End Construction.

(** [func NewByDefault() *logger]; [NewProduction] is what
    [zap.NewProduction()] answers.  Its error is dropped: after a
    failure the engine is nil, and [l.Sugar()] in [NewWithZap]
    dereferences it. *)
Definition NewByDefault (NewProduction : zap.Logger + errors.error) : M nat :=
  match NewProduction with
  | inl l => NewWithZap l
  | inr _ => panic
  end.

(** *** Decoration *)

(** Lines 151 to 158 of [With]: the argument list after the identifiers
    of the context have been appended. *)
Definition With_args (ctx : option context.Context) (args : list value)
  : list value :=
  match ctx with
  | Some ctx =>
      let args :=
        match assert_string (context.Value ctx requestIDKey) with
        | (id, true) => args ++ [VField (zap.String "RequestID" id)]
        | (_, false) => args
        end in
      let args :=
        match assert_string (context.Value ctx correlationIDKey) with
        | (id, true) => args ++ [VField (zap.String "CorrelationID" id)]
        | (_, false) => args
        end in
      args
  | None => args
  end.

(** [func (l *logger) With(ctx context.Context, args ...interface{})
    *logger] *)
Definition With (l : nat) (ctx : option context.Context) (args : list value)
  : M nat :=
  let args := With_args ctx args in
  if (0 <? length args)%nat then
    lg ← deref l;
    alloc {| SugaredLogger := zap.SugaredLogger_With (SugaredLogger lg) args;
             zapLogger := zapLogger lg |}
  else mret l.

Definition getCorrelationID (req : http.Request) : string :=
  http.Header_Get (http.Header req) "X-Correlation-ID".

Definition getRequestID (req : http.Request) : string :=
  http.Header_Get (http.Header req) "X-Request-ID".

(** [func WithRequest(ctx context.Context, req *http.Request)
    context.Context], on a context and a request that are not nil; [rnd]
    is the random source of [uuid.New]. *)
Definition WithRequest (rnd : nat → Z) (ctx : context.Context)
  (req : http.Request) : context.Context :=
  let id := getRequestID req in
  let id := if bool_decide (id = "") then uuid.String (uuid.New rnd) else id in
  let ctx := context.WithValue ctx requestIDKey (VString id) in
  let ctx :=
    let id := getCorrelationID req in
    if negb (bool_decide (id = ""))
    then context.WithValue ctx correlationIDKey (VString id)
    else ctx in
  ctx.

(** ** Histories of calls

    The runtime API as data, so that a statement can range over every
    later use of a logger. *)

(** The identifier fields [With] appends for a context. *)
Definition injected (ctx : option context.Context) : list value :=
  With_args ctx [].

Inductive call :=
| CDebug (args : list value)
| CInfo (args : list value)
| CError (args : list value)
| CDebugf (format : string) (args : list value)
| CInfof (format : string) (args : list value)
| CErrorf (format : string) (args : list value)
| CPrint (v : list value)
| CPrintf (format : string) (v : list value).

Definition do_call (l : nat) (c : call) : M unit :=
  match c with
  | CDebug args => Debug l args
  | CInfo args => Info l args
  | CError args => Error l args
  | CDebugf format args => Debugf l format args
  | CInfof format args => Infof l format args
  | CErrorf format args => Errorf l format args
  | CPrint v => Print l v
  | CPrintf format v => Printf l format v
  end.






(** The level and the text of every entry handed to the engine. *)
Definition messages (st : state) : list (zapcore.Level * option string) :=
  map (λ e, (zap.e_level e, zap.message e)) (out st).

Definition logged {A} (r : option (A * state))
  : list (zapcore.Level * option string) :=
  match r with
  | Some (_, st) => messages st
  | None => []
  end.

(** What the owner of a Go map can do to it: [m[key] = val] and
    [delete(m, key)]. *)
Inductive mutation :=
| Assign (key : string) (val : value)
| Delete (key : string).

Definition mutate (m : nat) (mu : mutation) (st : state) : state :=
  match mu with
  | Assign key val => map_assign m key val st
  | Delete key =>
      {| loggers := loggers st; out := out st;
         maps := alter (λ entries, delete key entries) m (maps st);
         levels := levels st |}
  end.


(** [bytes.ToLower] on ASCII text. *)
Definition ascii_ToLower (s : string) : string :=
  string_of_list_ascii (map http.to_lower (list_ascii_of_string s)).

(** ** Sample data *)

Definition root_logger : logger :=
  {| SugaredLogger := zap.Sugar 7; zapLogger := 7 |}.

Definition root_state : state :=
  {| loggers := [root_logger]; out := []; maps := []; levels := [] |}.

Definition both_ids : context.Context :=
  context.WithValue
    (context.WithValue context.Background requestIDKey (VString "r1"))
    correlationIDKey (VString "c1").

(** A request ID that is not a string, and a string under the plain
    integer key 0. *)
Definition foreign_ctx : context.Context :=
  context.WithValue
    (context.WithValue context.Background (context.intKey 0) (VString "abc"))
    requestIDKey (VInt 42).

Definition sample_rnd (i : nat) : Z := Z.of_nat (i * 37 + 250).

Definition request_with (h : list (string * list string)) : http.Request :=
  {| http.Header := list_to_map h |}.

Definition request_r1_c1 : http.Request :=
  request_with [("X-Request-Id", ["r1"]); ("X-Correlation-Id", ["c1"])].

Definition request_r2 : http.Request :=
  request_with [("X-Request-Id", ["r2"])].

(** The context of a first request, which had both headers. *)
Definition older_ctx : context.Context :=
  WithRequest sample_rnd context.Background request_r1_c1.

Definition fields_state : state :=
  {| loggers := []; out := [];
     maps := [{[ "service" := VString "api" ]}]; levels := [] |}.

Definition fields_conf : Config :=
  {| Encoding := "json"; OutputPaths := ["stdout"];
     Level := "info"; InitialFields := Some 0%nat |}.

Definition bad_level_conf : Config :=
  {| Encoding := "json"; OutputPaths := ["stdout"];
     Level := "notalevel"; InitialFields := None |}.

(** * Properties *)

(** ** Decoration: [With] *)


Lemma assert_string_true v s : assert_string v = (s, true) ↔ v = VString s.
Proof. destruct v; simpl; split; intros H; by inversion H. Qed.

Lemma assert_string_false v :
  (∀ id, v ≠ VString id) → assert_string v = ("", false).
Proof. destruct v; simpl; intros H; try done. by destruct (H s). Qed.

Lemma injected_unfold ctx :
  injected (Some ctx) =
    match context.Value ctx requestIDKey with
    | VString id => [VField (zap.String "RequestID" id)]
    | _ => []
    end ++
    match context.Value ctx correlationIDKey with
    | VString id => [VField (zap.String "CorrelationID" id)]
    | _ => []
    end.
Proof.
  unfold injected, With_args.
  destruct (context.Value ctx requestIDKey);
    destruct (context.Value ctx correlationIDKey); reflexivity.
Qed.


Lemma log_allocated st l lg lvl template fmtArgs :
  loggers st !! l = Some lg →
  log l lvl template fmtArgs st =
    emit (zap.SugaredLogger_log (SugaredLogger lg) lvl template fmtArgs) st.
Proof. intros Hl. unfold log, mbind, M_bind, deref. by rewrite Hl. Qed.

Lemma log_dangling st l lvl template fmtArgs :
  loggers st !! l = None → log l lvl template fmtArgs st = None.
Proof. intros Hl. unfold log, mbind, M_bind, deref. by rewrite Hl. Qed.

(** Every log method is one call of [log], whose level, template and
    operands depend on the method and its arguments only. *)
Lemma do_call_log l c :
  ∃ lvl template fmtArgs, ∀ st, do_call l c st = log l lvl template fmtArgs st.
Proof. destruct c; eexists _, _, _; intros st; reflexivity. Qed.









(** C6. With no caller argument and no string under either key (or a
    nil context), [With] answers the receiver itself and leaves the
    store as it is. *)
Theorem With_nothing_to_add_is_identity (st : state) (l : nat)
  (ctx : option context.Context) :
  (∀ c, ctx = Some c →
        (∀ id, context.Value c requestIDKey ≠ VString id)
        ∧ (∀ id, context.Value c correlationIDKey ≠ VString id)) →
  With l ctx [] st = Some (l, st).
Proof.
  intros Hctx. unfold With.
  assert (With_args ctx [] = []) as ->; [|reflexivity].
  destruct ctx as [c|]; [|reflexivity].
  destruct (Hctx c eq_refl) as [Hr Hc]. unfold With_args.
  by rewrite (assert_string_false _ Hr), (assert_string_false _ Hc).
Qed.


Lemma Value_other_key ctx k v k' :
  k ≠ k' → context.Value (context.WithValue ctx k v) k' = context.Value ctx k'.
Proof. intros Hne. simpl. by destruct (decide (k = k')). Qed.


(** Witnesses for the properties of [With]. *)



Lemma With_nothing_to_add_is_identity_witness :
  With 0 (Some foreign_ctx) [] root_state = Some (0%nat, root_state)
  ∧ With 0 None [] root_state = Some (0%nat, root_state).
Proof.
  split; apply With_nothing_to_add_is_identity.
  - intros c Hc. injection Hc as <-. split; intros id; vm_compute; discriminate.
  - intros c Hc. discriminate Hc.
Defined.



(** The sample context with a mistyped request ID and a foreign key
    injects nothing at all. *)
Example foreign_ctx_injects_nothing :
  injected (Some foreign_ctx) = []
  ∧ context.intKey 0 ≠ requestIDKey
  ∧ context.stringKey "0" ≠ requestIDKey.
Proof. split; [reflexivity|]. split; discriminate. Qed.

(** ** Request identifiers: [WithRequest] *)

Lemma getRequestID_header req :
  getRequestID req =
    match http.Header req !! "X-Request-Id" with
    | Some (v :: _) => v
    | _ => ""
    end.
Proof. reflexivity. Qed.

Lemma getCorrelationID_header req :
  getCorrelationID req =
    match http.Header req !! "X-Correlation-Id" with
    | Some (v :: _) => v
    | _ => ""
    end.
Proof. reflexivity. Qed.

(** A property checked on every number below [n] holds on the range. *)
Lemma Z_range_forall (P : Z → bool) (n : nat) :
  forallb P (map Z.of_nat (seq 0 n)) = true →
  ∀ x, (0 ≤ x < Z.of_nat n)%Z → P x = true.
Proof.
  intros Hall x Hx. rewrite forallb_forall in Hall. apply Hall.
  apply in_map_iff. exists (Z.to_nat x). split; [lia|].
  apply in_seq. lia.
Qed.

Lemma land_255_range b : (0 ≤ Z.land b 255 < 256)%Z.
Proof.
  change 255%Z with (Z.ones 8). rewrite Z.land_ones by lia.
  apply Z.mod_pos_bound. lia.
Qed.

Section UUIDBytes.

Variable b : Z.
Hypothesis Hb : (0 ≤ b < 256)%Z.







End UUIDBytes.


Lemma requestIDKey_ne_correlationIDKey : requestIDKey ≠ correlationIDKey.
Proof. discriminate. Qed.

(** The shape of the context [WithRequest] answers: the request-ID
    layer over [ctx], under a correlation-ID layer when the header has a
    value. *)
Lemma WithRequest_unfold rnd ctx req :
  WithRequest rnd ctx req =
    let id := if bool_decide (getRequestID req = "")
              then uuid.String (uuid.New rnd) else getRequestID req in
    let inner := context.WithValue ctx requestIDKey (VString id) in
    if bool_decide (getCorrelationID req = "") then inner
    else context.WithValue inner correlationIDKey
           (VString (getCorrelationID req)).
Proof.
  unfold WithRequest. by destruct (bool_decide (getCorrelationID req = "")).
Qed.

Lemma WithRequest_Value_request rnd ctx req :
  context.Value (WithRequest rnd ctx req) requestIDKey =
    VString (if bool_decide (getRequestID req = "")
             then uuid.String (uuid.New rnd) else getRequestID req).
Proof.
  rewrite WithRequest_unfold. cbv zeta.
  destruct (bool_decide (getCorrelationID req = "")); reflexivity.
Qed.



(** C3, as the code has it.  A non-empty X-Correlation-ID value is what
    the correlation-ID key yields in the context [WithRequest] answers.
    Without one, [WithRequest] adds the request-ID layer only (no empty
    string is stored): the correlation-ID key yields what it yields in
    [ctx], hence nothing when [ctx] has none, and then [With] injects no
    [CorrelationID] field. *)
Theorem WithRequest_correlation_id (rnd : nat → Z) (ctx : context.Context)
  (req : http.Request) :
  (∀ v rest, http.Header req !! "X-Correlation-Id" = Some (v :: rest) →
     v ≠ "" →
     context.Value (WithRequest rnd ctx req) correlationIDKey = VString v)
  ∧ (getCorrelationID req = "" →
     (∃ id, WithRequest rnd ctx req =
              context.WithValue ctx requestIDKey (VString id))
     ∧ context.Value (WithRequest rnd ctx req) correlationIDKey =
         context.Value ctx correlationIDKey
     ∧ (context.Value ctx correlationIDKey = VNil →
        context.Value (WithRequest rnd ctx req) correlationIDKey = VNil
        ∧ ∀ f, VField f ∈ injected (Some (WithRequest rnd ctx req)) →
               zapcore.Key f ≠ "CorrelationID")).
Proof.
  split.
  - intros v rest Hh Hv. rewrite WithRequest_unfold. cbv zeta.
    rewrite getCorrelationID_header, Hh.
    rewrite bool_decide_eq_false_2 by done. simpl.
    by destruct (decide (correlationIDKey = correlationIDKey)).
  - intros Hempty.
    assert (WithRequest rnd ctx req =
              context.WithValue ctx requestIDKey
                (VString (if bool_decide (getRequestID req = "")
                          then uuid.String (uuid.New rnd)
                          else getRequestID req))) as Hshape.
    { rewrite WithRequest_unfold. cbv zeta.
      by rewrite bool_decide_eq_true_2. }
    split; [by eexists|]. rewrite Hshape.
    assert (∀ id, context.Value
                    (context.WithValue ctx requestIDKey (VString id))
                    correlationIDKey = context.Value ctx correlationIDKey)
      as Hsame.
    { intros id. apply Value_other_key, requestIDKey_ne_correlationIDKey. }
    split; [apply Hsame|]. intros Hnil. rewrite Hsame. split; [done|].
    intros f. rewrite injected_unfold, Hsame, Hnil, app_nil_r.
    simpl. destruct (decide (requestIDKey = requestIDKey)); [|done].
    intros Hin. apply list_elem_of_singleton in Hin. by inversion Hin.
Qed.

Lemma WithRequest_correlation_id_witness :
  context.Value
    (WithRequest sample_rnd context.Background
       (request_with [("X-Request-Id", ["r1"]); ("X-Correlation-Id", ["c1"])]))
    correlationIDKey = VString "c1"
  ∧ context.Value
      (WithRequest sample_rnd context.Background
         (request_with [("X-Request-Id", ["abc-123"])]))
      correlationIDKey = VNil.
Proof.
  split.
  - apply (WithRequest_correlation_id sample_rnd context.Background
             (request_with
                [("X-Request-Id", ["r1"]); ("X-Correlation-Id", ["c1"])]))
      with (rest := []); [reflexivity | discriminate].
  - apply (WithRequest_correlation_id sample_rnd context.Background
             (request_with [("X-Request-Id", ["abc-123"])]));
      reflexivity.
Defined.

(** C3, as the claim has it, fails on a context that already carries a
    correlation ID: a request without the header leaves that older value
    in sight, and [With] injects it. *)
Lemma WithRequest_keeps_older_correlation_id :
  http.Header request_r2 !! "X-Correlation-Id" = None
  ∧ getCorrelationID request_r2 = ""
  ∧ context.Value (WithRequest sample_rnd older_ctx request_r2)
      correlationIDKey = VString "c1"
  ∧ context.Value (WithRequest sample_rnd older_ctx request_r2)
      correlationIDKey ≠ VNil
  ∧ injected (Some (WithRequest sample_rnd older_ctx request_r2)) =
      [VField (zap.String "RequestID" "r2");
       VField (zap.String "CorrelationID" "c1")].
Proof.
  split; [reflexivity|]. split; [reflexivity|]. split; [reflexivity|].
  split; [discriminate|reflexivity].
Qed.

(** ** The print-style aliases: [Print] and [Printf] *)

Lemma Print_is_Debug_of_a_slice l v : Print l v = Debug l [VSlice v].
Proof. reflexivity. Qed.

Lemma Printf_is_Debugf_of_a_slice l format v :
  Printf l format v = Debugf l format [VSlice v].
Proof. reflexivity. Qed.

(** [Print] and [Printf] log at the debug level, and at no other. *)
Lemma Print_Printf_level st l lg v format :
  loggers st !! l = Some lg →
  (∃ e, Print l v st = emit e st ∧ zap.e_level e = zapcore.DebugLevel)
  ∧ (∃ e, Printf l format v st = emit e st
          ∧ zap.e_level e = zapcore.DebugLevel).
Proof.
  intros Hl. unfold Print, Printf, Debug, Debugf.
  rewrite !(log_allocated _ _ _ _ _ _ Hl). split; by eexists.
Qed.

(** C4, on the code.  [Print] and [Printf] do log at the debug level,
    but they hand their operands to [Debug] and [Debugf] as one slice:
    the text is that of the slice, not that of [Debug] and [Debugf] on
    the same operands. *)
Theorem Print_Printf_differ_from_Debug_Debugf :
  logged (Print 0 [VString "hello"] root_state)
    = [(zapcore.DebugLevel, Some "[hello]")]
  ∧ logged (Debug 0 [VString "hello"] root_state)
      = [(zapcore.DebugLevel, Some "hello")]
  ∧ logged (Print 0 [VString "a"; VInt 1] root_state)
      = [(zapcore.DebugLevel, Some "[a 1]")]
  ∧ logged (Debug 0 [VString "a"; VInt 1] root_state)
      = [(zapcore.DebugLevel, Some "a1")]
  ∧ logged (Printf 0 "%s=%d" [VString "a"; VInt 1] root_state)
      = [(zapcore.DebugLevel, Some "[a %!s(int=1)]=%!d(MISSING)")]
  ∧ logged (Debugf 0 "%s=%d" [VString "a"; VInt 1] root_state)
      = [(zapcore.DebugLevel, Some "a=1")]
  ∧ logged (Printf 0 "ready" [] root_state)
      = [(zapcore.DebugLevel, Some "ready%!(EXTRA []interface {}=[])")]
  ∧ logged (Debugf 0 "ready" [] root_state)
      = [(zapcore.DebugLevel, Some "ready")].
Proof. repeat split; vm_compute; reflexivity. Qed.

(** ** Construction: [configToZapConfig] and [New] *)

Section ConstructionProperties.

Variable ToLower : string → string.
Variable Build : zap.Config → zap.Logger + errors.error.

Lemma Level_UnmarshalText_unknown text :
  zapcore.unmarshalText text = None →
  zapcore.unmarshalText (ToLower text) = None →
  Level_UnmarshalText ToLower text =
    inr (errors.Errorf "unrecognized level: %q" [errors.AString text]).
Proof. intros H1 H2. unfold Level_UnmarshalText. by rewrite H1, H2. Qed.

(** The range loop leaves, in the map at [m], its former entries
    overlaid with those of the source. *)
Lemma copy_entries_run src m st :
  ∃ st', copy_entries src m st = Some (tt, st')
         ∧ loggers st' = loggers st ∧ out st' = out st
         ∧ levels st' = levels st
         ∧ maps st' =
             alter (λ old, map_entries st src ∪ old) m (maps st).
Proof.
  unfold copy_entries. eexists. split; [reflexivity|].
  apply (map_fold_weak_ind
           (λ r (mp : gmap string value),
              loggers r = loggers st ∧ out r = out st
              ∧ levels r = levels st
              ∧ maps r = alter (λ old, mp ∪ old) m (maps st))).
  - repeat split. symmetry. apply list_alter_id. intros x.
    by rewrite (left_id_L ∅ (∪)).
  - intros key val mp r _ (Hl & Ho & Hv & Hm). simpl. repeat split; try done.
    rewrite Hm, list_alter_alter_eq. apply list_alter_ext; [|done].
    intros old _. simpl. by rewrite insert_union_l.
Qed.

(** The translation, step by step. *)
Lemma configToZapConfig_run conf st :
  ∃ cfg err st',
    configToZapConfig ToLower conf st = Some ((cfg, err), st')
    ∧ cfg = {| zap.Level := {| zap.l := Some (length (levels st)) |};
               zap.Encoding := Encoding conf;
               zap.EncoderConfig := zap.EncoderConfig defaultZapConfig;
               zap.OutputPaths := OutputPaths conf;
               zap.InitialFields := Some (length (maps st)) |}
    ∧ err = match Level_UnmarshalText ToLower (Level conf) with
            | inl _ => None
            | inr e =>
                Some (errors.Wrapf e
                  "Can not unmarshal text %q, expected one of zapcore.Levels"
                  [errors.AString (Level conf)])
            end
    ∧ loggers st' = loggers st ∧ out st' = out st
    ∧ maps st' = maps st ++ [map_entries st (InitialFields conf)]
    ∧ levels st' =
        levels st ++ [match Level_UnmarshalText ToLower (Level conf) with
                      | inl lv => zapcore.Level_int lv
                      | inr _ => 0%Z
                      end].
Proof.
  set (st1 := {| loggers := loggers st; out := out st;
                 maps := maps st ++ [∅]; levels := levels st |}).
  unfold configToZapConfig. unfold mbind at 1, M_bind at 1.
  change (make_map st) with (Some (length (maps st), st1)).
  cbv beta iota. unfold mbind at 1, M_bind at 1.
  cbn [zap.Level zap.Encoding zap.EncoderConfig zap.OutputPaths
       zap.InitialFields].
  destruct (copy_entries_run (InitialFields conf) (length (maps st)) st1)
    as (st2 & -> & Hl2 & Ho2 & Hv2 & Hm2).
  assert (maps st2 = maps st ++ [map_entries st (InitialFields conf)])
    as Hmaps.
  { rewrite Hm2. simpl. rewrite alter_app_r_alt by lia.
    rewrite Nat.sub_diag. simpl. rewrite (right_id_L ∅ (∪)). f_equal.
    f_equal. unfold map_entries.
    destruct (InitialFields conf) as [a|]; [|done]. simpl.
    destruct (decide (a < length (maps st))) as [Hlt|Hge].
    - by rewrite lookup_app_l.
    - rewrite (lookup_ge_None_2 (maps st)) by lia.
      destruct (decide (a = length (maps st))) as [->|Hne].
      + rewrite lookup_app_r by lia. by rewrite Nat.sub_diag.
      + rewrite lookup_ge_None_2; [done|]. rewrite length_app. simpl. lia. }
  unfold AtomicLevel_UnmarshalText. simpl zap.l. cbv beta iota.
  unfold mbind, M_bind, new_level, store_level, mret, M_ret.
  destruct (Level_UnmarshalText ToLower (Level conf)) as [lv|e];
    rewrite Hv2; simpl; eexists _, _, _;
    (split; [reflexivity|]); simpl; rewrite ?Hl2, ?Ho2, ?Hmaps, ?Hv2;
    repeat split; try done.
  rewrite insert_app_r_alt by (simpl; lia). by rewrite Nat.sub_diag.
Qed.

End ConstructionProperties.

(** [New] on a translation that succeeds and a build that fails. *)
Lemma New_build_error ToLower Build conf st cfg st' cause :
  configToZapConfig ToLower conf st = Some ((cfg, None), st') →
  Build cfg = inr cause →
  New ToLower Build conf st =
    Some ((None, Some (errors.Wrapf cause build_format
                         [errors.AZapConfig cfg])), st').
Proof.
  intros Hcfg Hb. unfold New, mbind, M_bind. by rewrite Hcfg, Hb.
Qed.

(** C5. When neither the level string nor its lower-case form is a
    level token, [New] answers a nil logger and an error, allocates no
    logger and logs nothing; the message of the error quotes the level
    string, and it starts with a literal text that differs from the one
    a failed build starts with. *)
Theorem New_rejects_unknown_level (ToLower : string → string)
  (Build : zap.Config → zap.Logger + errors.error) (st : state)
  (conf : Config) :
  zapcore.unmarshalText (Level conf) = None →
  zapcore.unmarshalText (ToLower (Level conf)) = None →
  ∃ err st',
    New ToLower Build conf st = Some ((None, Some err), st')
    ∧ loggers st' = loggers st ∧ out st' = out st
    ∧ errors.Error err =
        [errors.Lit convert_prefix;
         errors.Verb "v" (Some (errors.AConfig conf));
         errors.Lit ": ";
         errors.Lit "Can not unmarshal text ";
         errors.Verb "q" (Some (errors.AString (Level conf)));
         errors.Lit ", expected one of zapcore.Levels";
         errors.Lit ": ";
         errors.Lit "unrecognized level: ";
         errors.Verb "q" (Some (errors.AString (Level conf)))]
    ∧ (∀ conf' st1 cfg st2 cause,
         configToZapConfig ToLower conf' st1 = Some ((cfg, None), st2) →
         Build cfg = inr cause →
         ∃ err',
           New ToLower Build conf' st1 = Some ((None, Some err'), st2)
           ∧ errors.Error err' =
               errors.Lit build_prefix
               :: errors.Verb "#v" (Some (errors.AZapConfig cfg))
               :: errors.Lit ": " :: errors.Error cause)
    ∧ String.prefix convert_prefix build_prefix = false
    ∧ String.prefix build_prefix convert_prefix = false.
Proof.
  intros H1 H2.
  destruct (configToZapConfig_run ToLower conf st)
    as (cfg & err & st' & Hrun & _ & Herr & Hl & Ho & _).
  rewrite (Level_UnmarshalText_unknown ToLower _ H1 H2) in Herr.
  eexists _, st'. split.
  { unfold New, mbind, M_bind. rewrite Hrun, Herr. reflexivity. }
  repeat split; try done.
  intros conf' st1 cfg' st2 cause Hcfg Hb. eexists. split.
  - by apply New_build_error.
  - reflexivity.
Qed.

Lemma New_rejects_unknown_level_witness :
  ∃ err st',
    New ascii_ToLower (λ _, inl 9%nat) bad_level_conf root_state
      = Some ((None, Some err), st')
    ∧ loggers st' = loggers root_state.
Proof.
  destruct (New_rejects_unknown_level ascii_ToLower (λ _, inl 9%nat)
              root_state bad_level_conf)
    as (err & st' & HN & Hl & _); [reflexivity | reflexivity |].
  exists err, st'. split; [exact HN | exact Hl].
Defined.

(** A level token in any case of letters is accepted, and the logger
    announces itself at the info level. *)
Example New_accepts_Warn :
  ∃ st',
    New ascii_ToLower (λ _, inl 9%nat)
      {| Encoding := "json"; OutputPaths := ["stdout"];
         Level := "Warn"; InitialFields := None |} root_state
      = Some ((Some 1%nat, None), st')
    ∧ messages st' =
        [(zapcore.InfoLevel, Some "Logger construction succeeded")]
    ∧ levels st' = [1%Z].
Proof. eexists. split; [vm_compute; reflexivity|]. split; reflexivity. Qed.

Lemma mutations_elsewhere (a m : nat) (mus : list mutation) (st : state) :
  a ≠ m → maps (foldl (λ s mu, mutate a mu s) st mus) !! m = maps st !! m.
Proof.
  intros Hne. revert st. induction mus as [|mu mus IH]; intros st; [done|].
  simpl. rewrite IH. destruct mu; simpl; by rewrite list_lookup_alter_ne.
Qed.

(** C9. The translation starts from the baseline, which shares no cell
    of the store, and overlays the caller's destinations and encoding;
    it writes to fresh cells only, so every map and level cell there was
    is what it was; the initial fields are copied into a fresh map,
    which is not the caller's: whatever the caller does to its own map
    afterwards, the map of the engine configuration holds the entries
    the caller's map had at the time of the translation. *)
Theorem configToZapConfig_copies_initial_fields (ToLower : string → string)
  (st : state) (conf : Config) :
  (∀ a, InitialFields conf = Some a → a < length (maps st)) →
  ∃ cfg err st' m,
    configToZapConfig ToLower conf st = Some ((cfg, err), st')
    ∧ zap.InitialFields cfg = Some m
    ∧ maps st !! m = None
    ∧ InitialFields conf ≠ Some m
    ∧ map_entries st' (Some m) = map_entries st (InitialFields conf)
    ∧ zap.OutputPaths cfg = OutputPaths conf
    ∧ zap.Encoding cfg = Encoding conf
    ∧ zap.EncoderConfig cfg = zap.EncoderConfig defaultZapConfig
    ∧ zap.l (zap.Level defaultZapConfig) = None
    ∧ zap.InitialFields defaultZapConfig = None
    ∧ (∀ a, a < length (maps st) → maps st' !! a = maps st !! a)
    ∧ (∀ a, a < length (levels st) → levels st' !! a = levels st !! a)
    ∧ loggers st' = loggers st
    ∧ out st' = out st
    ∧ (∀ a mus, InitialFields conf = Some a →
         map_entries (foldl (λ s mu, mutate a mu s) st' mus)
           (zap.InitialFields cfg) =
           map_entries st (InitialFields conf)).
Proof.
  intros Hvalid.
  destruct (configToZapConfig_run ToLower conf st)
    as (cfg & err & st' & Hrun & Hcfg & _ & Hl & Ho & Hm & Hv).
  exists cfg, err, st', (length (maps st)).
  assert (map_entries st' (Some (length (maps st))) =
            map_entries st (InitialFields conf)) as Hcopy.
  { unfold map_entries at 1. rewrite Hm, lookup_app_r by lia.
    by rewrite Nat.sub_diag. }
  split; [exact Hrun|]. subst cfg. simpl.
  repeat split; try done.
  - by apply lookup_ge_None_2.
  - intros Heq. specialize (Hvalid _ Heq). lia.
  - intros a Ha. rewrite Hm. by apply lookup_app_l.
  - intros a Ha. rewrite Hv. by apply lookup_app_l.
  - intros a mus Ha. rewrite <- Hcopy. unfold map_entries.
    rewrite mutations_elsewhere; [done|]. specialize (Hvalid _ Ha). lia.
Qed.

Lemma configToZapConfig_copies_initial_fields_witness :
  ∃ cfg err st' m,
    configToZapConfig ascii_ToLower fields_conf fields_state
      = Some ((cfg, err), st')
    ∧ zap.InitialFields cfg = Some m
    ∧ map_entries
        (foldl (λ s mu, mutate 0 mu s) st'
           [Assign "service" (VString "other"); Delete "service"])
        (zap.InitialFields cfg) = {[ "service" := VString "api" ]}.
Proof.
  destruct (configToZapConfig_copies_initial_fields ascii_ToLower
              fields_state fields_conf)
    as (cfg & err & st' & m & Hrun & Hm & _ & _ & _ & _ & _ & _ & _ & _ & _
        & _ & _ & _ & Hmut).
  { intros a Ha. injection Ha as <-. simpl. lia. }
  exists cfg, err, st', m. split; [exact Hrun|]. split; [exact Hm|].
  apply (Hmut 0%nat). reflexivity.
Defined.

(** * Further properties of the code *)

(** ** More on [With] *)



(** X2. On a nil receiver (an address that holds no logger), [With]
    answers the receiver when there is nothing to add and panics
    otherwise; the log methods and [ZapLogger] panic. *)
Theorem With_on_nil_receiver (st : state) (l : nat)
  (ctx : option context.Context) (args : list value) :
  loggers st !! l = None →
  (With_args ctx args = [] → With l ctx args st = Some (l, st))
  ∧ (With_args ctx args ≠ [] → With l ctx args st = None)
  ∧ (∀ c, do_call l c st = None)
  ∧ ZapLogger l st = None.
Proof.
  intros Hl. repeat split.
  - intros Hall. unfold With. by rewrite Hall.
  - intros Hall. unfold With.
    destruct (With_args ctx args) as [|a all]; [done|].
    simpl. unfold mbind, M_bind, deref. by rewrite Hl.
  - intros c. destruct (do_call_log l c) as (lvl & t & a & Hc).
    by rewrite Hc, log_dangling.
  - unfold ZapLogger, mbind, M_bind, deref. by rewrite Hl.
Qed.

Lemma With_on_nil_receiver_witness :
  (With_args (Some both_ids) [] = [] →
   With 5 (Some both_ids) [] root_state = Some (5%nat, root_state))
  ∧ (With_args (Some both_ids) [] ≠ [] →
     With 5 (Some both_ids) [] root_state = None)
  ∧ (∀ c, do_call 5 c root_state = None)
  ∧ ZapLogger 5 root_state = None.
Proof. apply (With_on_nil_receiver root_state 5). reflexivity. Defined.




(** X4. The fields [With] injects are, in this order, at most one
    [RequestID] string field and at most one [CorrelationID] string
    field, and nothing else; a nil context injects nothing. *)
Theorem injected_shape (ctx : option context.Context) :
  (injected ctx = []
   ∨ (∃ r, injected ctx = [VField (zap.String "RequestID" r)])
   ∨ (∃ c, injected ctx = [VField (zap.String "CorrelationID" c)])
   ∨ (∃ r c, injected ctx = [VField (zap.String "RequestID" r);
                             VField (zap.String "CorrelationID" c)]))
  ∧ (length (injected ctx) ≤ 2)%nat
  ∧ (ctx = None → injected ctx = [])
  ∧ (∀ c id, ctx = Some c →
       (VField (zap.String "RequestID" id) ∈ injected ctx
        ↔ context.Value c requestIDKey = VString id)
       ∧ (VField (zap.String "CorrelationID" id) ∈ injected ctx
          ↔ context.Value c correlationIDKey = VString id)).
Proof.
  destruct ctx as [c|]; [|repeat split; try done; [by left | simpl; lia]].
  rewrite injected_unfold.
  split; [|split; [|split; [done|]]].
  - destruct (context.Value c requestIDKey);
      destruct (context.Value c correlationIDKey); simpl; eauto 10.
  - destruct (context.Value c requestIDKey);
      destruct (context.Value c correlationIDKey); simpl; lia.
  - intros c' id [= <-].
    destruct (context.Value c requestIDKey) as [| | |r| |];
      destruct (context.Value c correlationIDKey) as [| | |k| |]; simpl;
      split; split; intros H;
      repeat match goal with
        | H : _ ∈ [] |- _ => by inversion H
        | H : _ ∈ _ :: _ |- _ => apply elem_of_cons in H as [H|H]
        | H : VField _ = VField _ |- _ => inversion H; clear H; subst
        | H : VString _ = VString _ |- _ => inversion H; clear H; subst
        end; try done; set_solver.
Qed.

Lemma injected_shape_witness :
  (VField (zap.String "RequestID" "r1") ∈ injected (Some both_ids)
   ↔ context.Value both_ids requestIDKey = VString "r1")
  ∧ (VField (zap.String "CorrelationID" "r1") ∈ injected (Some both_ids)
     ↔ context.Value both_ids correlationIDKey = VString "r1").
Proof.
  destruct (injected_shape (Some both_ids)) as (_ & _ & _ & H).
  apply (H both_ids "r1"). reflexivity.
Defined.

(** ** [WithRequest] and [With] together *)



(** X6. [WithRequest] reads two entries of the header map only, those
    under the canonical keys X-Request-Id and X-Correlation-Id: setting
    or deleting any other entry, one under the spelling X-Request-ID
    among them, changes nothing. *)
Theorem WithRequest_ignores_other_headers (rnd : nat → Z)
  (ctx : context.Context) (req : http.Request) (k : string)
  (vs : list string) :
  k ≠ "X-Request-Id" → k ≠ "X-Correlation-Id" →
  WithRequest rnd ctx {| http.Header := <[k := vs]> (http.Header req) |}
    = WithRequest rnd ctx req
  ∧ WithRequest rnd ctx {| http.Header := delete k (http.Header req) |}
      = WithRequest rnd ctx req.
Proof.
  intros Hr Hc.
  assert (∀ h, h !! "X-Request-Id" = http.Header req !! "X-Request-Id" →
               h !! "X-Correlation-Id" = http.Header req !! "X-Correlation-Id" →
               WithRequest rnd ctx {| http.Header := h |}
                 = WithRequest rnd ctx req) as Hsame.
  { intros h H1 H2. rewrite !WithRequest_unfold.
    rewrite !getRequestID_header, !getCorrelationID_header. simpl.
    by rewrite H1, H2. }
  split; apply Hsame.
  - by rewrite lookup_insert_ne.
  - by rewrite lookup_insert_ne.
  - by rewrite lookup_delete_ne.
  - by rewrite lookup_delete_ne.
Qed.

Lemma WithRequest_ignores_other_headers_witness :
  WithRequest sample_rnd context.Background
    {| http.Header := insert "X-Request-ID" ["abc"] (http.Header (request_with [])) |}
    = WithRequest sample_rnd context.Background (request_with [])
  ∧ WithRequest sample_rnd context.Background
      {| http.Header := delete "X-Request-ID" (http.Header (request_with [])) |}
      = WithRequest sample_rnd context.Background (request_with []).
Proof.
  apply (WithRequest_ignores_other_headers sample_rnd context.Background
           (request_with []) "X-Request-ID" ["abc"]); discriminate.
Defined.

(** ** The log methods *)

Lemma printValue_slice vb depth vs s :
  fmt.printValue vb depth (VSlice vs) = Some s →
  ∃ body, s = "[" +:+ body +:+ "]".
Proof.
  simpl.
  match goal with
  | |- context [mbind _ ?m] => destruct m as [body|]
  end; simpl; [|done].
  intros [= <-]. by exists body.
Qed.

Lemma string_app_nil_r (s : string) : s +:+ "" = s.
Proof.
  induction s as [|c s IH]; [done|].
  change (String c s +:+ "") with (String c (s +:+ "")). by rewrite IH.
Qed.

(** X7. On every allocated logger and for every operand list, [Print]
    and [Printf] hand the engine one entry at the debug level, with the
    fields and the base engine of the logger, whose only operand is the
    operand slice itself; [Print] uses the empty template, so its text,
    where the text is modelled, is the bracketed form of a slice. *)
Theorem Print_Printf_entry (st : state) (l : nat) (lg : logger)
  (format : string) (v : list value) :
  loggers st !! l = Some lg →
  Print l v st =
    emit {| zap.e_base := zap.base (SugaredLogger lg);
            zap.e_fields := zap.fields (SugaredLogger lg);
            zap.e_level := zapcore.DebugLevel;
            zap.e_template := "";
            zap.e_fmtArgs := [VSlice v] |} st
  ∧ Printf l format v st =
      emit {| zap.e_base := zap.base (SugaredLogger lg);
              zap.e_fields := zap.fields (SugaredLogger lg);
              zap.e_level := zapcore.DebugLevel;
              zap.e_template := format;
              zap.e_fmtArgs := [VSlice v] |} st
  ∧ (∀ text, zap.format_message "" [VSlice v] = Some text →
       ∃ body, text = "[" +:+ body +:+ "]").
Proof.
  intros Hl. unfold Print, Printf, Debug, Debugf.
  rewrite !(log_allocated _ _ _ _ _ _ Hl). repeat split.
  intros text. unfold zap.format_message, fmt.Sprint.
  cbn [bool_decide decide_rel]. simpl fmt.doPrint. unfold fmt.printArg.
  destruct (fmt.printValue fmt.verb_v 0 (VSlice v)) as [s|] eqn:Hs; [|done].
  destruct (printValue_slice _ _ _ _ Hs) as [body ->].
  simpl. intros [= <-]. exists body. by rewrite string_app_nil_r.
Qed.

Lemma Print_Printf_entry_witness :
  Print 0 [VString "a"; VInt 1] root_state =
    emit {| zap.e_base := zap.base (SugaredLogger root_logger);
            zap.e_fields := zap.fields (SugaredLogger root_logger);
            zap.e_level := zapcore.DebugLevel;
            zap.e_template := "";
            zap.e_fmtArgs := [VSlice [VString "a"; VInt 1]] |} root_state
  ∧ Printf 0 "%v" [VString "a"; VInt 1] root_state =
      emit {| zap.e_base := zap.base (SugaredLogger root_logger);
              zap.e_fields := zap.fields (SugaredLogger root_logger);
              zap.e_level := zapcore.DebugLevel;
              zap.e_template := "%v";
              zap.e_fmtArgs := [VSlice [VString "a"; VInt 1]] |} root_state
  ∧ (∀ text,
       zap.format_message "" [VSlice [VString "a"; VInt 1]] = Some text →
       ∃ body, text = "[" +:+ body +:+ "]").
Proof.
  apply (Print_Printf_entry root_state 0 root_logger). reflexivity.
Defined.

(** ** Histories *)




(** ** Construction *)



(** [NewByDefault] answers the logger [NewWithZap] makes of the
    production engine, and no error; when the production engine cannot
    be built it does not answer nil: it panics. *)
Lemma NewByDefault_wraps_or_panics
  (NewProduction : zap.Logger + errors.error) (st : state) :
  match NewProduction with
  | inl z =>
      NewByDefault NewProduction st = NewWithZap z st
      ∧ ∃ l st', NewByDefault NewProduction st = Some (l, st')
                 ∧ loggers st !! l = None
                 ∧ loggers st' !! l =
                     Some {| SugaredLogger := zap.Sugar z; zapLogger := z |}
                 ∧ With l None [] st' = Some (l, st')
  | inr _ => NewByDefault NewProduction st = None
  end.
Proof.
  destruct NewProduction as [z|e]; [|reflexivity].
  split; [reflexivity|]. eexists _, _. split; [reflexivity|].
  split; [by apply lookup_ge_None_2|]. split; [|reflexivity].
  simpl. rewrite lookup_app_r by lia. by rewrite Nat.sub_diag.
Qed.

(** The last steps of [New]: wrap the engine, announce the logger. *)
Lemma New_announce (z : zap.Logger) (st : state) :
  (logger ← NewWithZap z;
   _ ← Info logger [VString "Logger construction succeeded"];
   mret (Some logger, @None errors.error)) st =
    Some ((Some (length (loggers st)), None),
          {| loggers :=
               loggers st ++ [{| SugaredLogger := zap.Sugar z; zapLogger := z |}];
             out :=
               out st ++
                 [{| zap.e_base := z; zap.e_fields := [];
                     zap.e_level := zapcore.InfoLevel; zap.e_template := "";
                     zap.e_fmtArgs :=
                       [VString "Logger construction succeeded"] |}];
             maps := maps st; levels := levels st |}).
Proof.
  set (lg := {| SugaredLogger := zap.Sugar z; zapLogger := z |}).
  set (st1 := {| loggers := loggers st ++ [lg]; out := out st;
                 maps := maps st; levels := levels st |}).
  unfold mbind at 1, M_bind at 1.
  change (NewWithZap z st) with (Some (length (loggers st), st1)).
  cbv beta iota. unfold mbind, M_bind, Info.
  rewrite (log_allocated st1 _ lg); [reflexivity|].
  simpl. rewrite lookup_app_r by lia. by rewrite Nat.sub_diag.
Qed.



(** X11. [New] never panics, and it answers either a logger and no
    error or an error and no logger.  The logger is fresh and allocated;
    with an error, no logger has been allocated and nothing has been
    logged.  The error case is exactly the one of an unknown level or of
    a failed build. *)
Theorem New_logger_xor_error (ToLower : string → string)
  (Build : zap.Config → zap.Logger + errors.error) (conf : Config)
  (st : state) :
  ∃ r st',
    New ToLower Build conf st = Some (r, st')
    ∧ ((∃ l lv cfg z,
          r = (Some l, None)
          ∧ loggers st !! l = None ∧ is_Some (loggers st' !! l)
          ∧ Level_UnmarshalText ToLower (Level conf) = inl lv
          ∧ (∃ st1, configToZapConfig ToLower conf st = Some ((cfg, None), st1))
          ∧ Build cfg = inl z)
       ∨ (∃ err,
            r = (None, Some err)
            ∧ loggers st' = loggers st ∧ out st' = out st
            ∧ ((∃ e, Level_UnmarshalText ToLower (Level conf) = inr e)
               ∨ (∃ cfg cause,
                    configToZapConfig ToLower conf st = Some ((cfg, None), st')
                    ∧ Build cfg = inr cause
                    ∧ err = errors.Wrapf cause build_format
                              [errors.AZapConfig cfg])))).
Proof.
  destruct (configToZapConfig_run ToLower conf st)
    as (cfg & err & st1 & Hrun & _ & Herr & Hl & Ho & _).
  unfold New. unfold mbind at 1, M_bind at 1. rewrite Hrun.
  destruct (Level_UnmarshalText ToLower (Level conf)) as [lv|e] eqn:Hlv;
    subst err.
  - destruct (Build cfg) as [z|cause] eqn:Hb.
    + rewrite New_announce.
      eexists _, _. split; [reflexivity|]. left.
      exists (length (loggers st1)), lv, cfg, z. simpl. rewrite Hl.
      repeat split; try done.
      * by apply lookup_ge_None_2.
      * rewrite lookup_app_r by lia. rewrite Nat.sub_diag. by eexists.
      * by exists st1.
    + eexists _, _. split; [reflexivity|]. right. eexists.
      repeat split; try done. right. by exists cfg, cause.
  - eexists _, _. split; [reflexivity|]. right. eexists.
    repeat split; try done. left. by exists e.
Qed.

(** X12. When the level is recognised and the build fails, [New]
    answers nil and the cause wrapped under the build format: the message
    is the build prefix, the configuration, a colon and the message of
    the cause.  No logger is allocated and nothing is logged, while the
    map and the level cell of the translation stay in the store. *)
Theorem New_build_failure (ToLower : string → string)
  (Build : zap.Config → zap.Logger + errors.error) (conf : Config)
  (st : state) (lv : zapcore.Level) (cause : errors.error) :
  Level_UnmarshalText ToLower (Level conf) = inl lv →
  (∀ cfg st1, configToZapConfig ToLower conf st = Some ((cfg, None), st1) →
              Build cfg = inr cause) →
  ∃ cfg st',
    New ToLower Build conf st =
      Some ((None, Some (errors.Wrapf cause build_format
                           [errors.AZapConfig cfg])), st')
    ∧ errors.Error (errors.Wrapf cause build_format [errors.AZapConfig cfg]) =
        errors.Lit build_prefix
        :: errors.Verb "#v" (Some (errors.AZapConfig cfg))
        :: errors.Lit ": " :: errors.Error cause
    ∧ zap.OutputPaths cfg = OutputPaths conf
    ∧ zap.Encoding cfg = Encoding conf
    ∧ loggers st' = loggers st ∧ out st' = out st
    ∧ maps st' = maps st ++ [map_entries st (InitialFields conf)]
    ∧ levels st' = levels st ++ [zapcore.Level_int lv].
Proof.
  intros Hlv HB.
  destruct (configToZapConfig_run ToLower conf st)
    as (cfg & err & st1 & Hrun & Hcfg & Herr & Hl & Ho & Hm & Hv).
  rewrite Hlv in Herr, Hv. subst err.
  exists cfg, st1. split.
  { apply New_build_error; [exact Hrun|]. by eapply HB. }
  subst cfg. by repeat split.
Qed.

Lemma New_build_failure_witness :
  ∃ cfg st',
    New ascii_ToLower (λ _, inr (errors.External "open /nowhere: denied"))
      fields_conf fields_state =
      Some ((None, Some (errors.Wrapf (errors.External "open /nowhere: denied")
                           build_format [errors.AZapConfig cfg])), st')
    ∧ loggers st' = loggers fields_state.
Proof.
  destruct (New_build_failure ascii_ToLower
              (λ _, inr (errors.External "open /nowhere: denied"))
              fields_conf fields_state zapcore.InfoLevel
              (errors.External "open /nowhere: denied"))
    as (cfg & st' & HN & _ & _ & _ & Hl & _); [reflexivity | reflexivity |].
  exists cfg, st'. split; [exact HN | exact Hl].
Defined.

(** X13. [configToZapConfig] always answers a configuration with the
    caller's destinations and encoding and a fresh level cell, also with
    an error.  For a recognised level there is no error and the cell
    holds that level; the empty level string is recognised, as the info
    level, whatever the case conversion; for an unknown level the error
    wraps the one of the parser under the text of the level and the cell
    holds zero, the info level. *)
Theorem configToZapConfig_level (ToLower : string → string) (conf : Config)
  (st : state) :
  ∃ cfg err st' a,
    configToZapConfig ToLower conf st = Some ((cfg, err), st')
    ∧ zap.l (zap.Level cfg) = Some a
    ∧ levels st !! a = None
    ∧ zap.OutputPaths cfg = OutputPaths conf
    ∧ zap.Encoding cfg = Encoding conf
    ∧ (∀ lv, Level_UnmarshalText ToLower (Level conf) = inl lv →
         err = None ∧ levels st' !! a = Some (zapcore.Level_int lv))
    ∧ (Level conf = "" → err = None ∧ levels st' !! a = Some 0%Z)
    ∧ (∀ e, Level_UnmarshalText ToLower (Level conf) = inr e →
         err = Some (errors.Wrapf e
                 "Can not unmarshal text %q, expected one of zapcore.Levels"
                 [errors.AString (Level conf)])
         ∧ e = errors.Errorf "unrecognized level: %q"
                 [errors.AString (Level conf)]
         ∧ levels st' !! a = Some 0%Z).
Proof.
  destruct (configToZapConfig_run ToLower conf st)
    as (cfg & err & st1 & Hrun & Hcfg & Herr & _ & _ & _ & Hv).
  exists cfg, err, st1, (length (levels st)).
  assert (∀ x, levels st ++ [x] = levels st1 →
               levels st1 !! length (levels st) = Some x) as Hcell.
  { intros x <-. rewrite lookup_app_r by lia. by rewrite Nat.sub_diag. }
  split; [exact Hrun|]. subst cfg. simpl.
  split; [done|]. split; [by apply lookup_ge_None_2|].
  split; [done|]. split; [done|]. split; [|split].
  - intros lv Hlv. rewrite Hlv in Herr, Hv. split; [done|]. by apply Hcell.
  - intros Hempty.
    assert (Level_UnmarshalText ToLower (Level conf) = inl zapcore.InfoLevel)
      as Hlv by (by rewrite Hempty).
    rewrite Hlv in Herr, Hv. split; [done|]. by apply Hcell.
  - intros e He. rewrite He in Herr, Hv. split; [done|]. split; [|by apply Hcell].
    unfold Level_UnmarshalText in He.
    destruct (zapcore.unmarshalText (Level conf)); [done|].
    destruct (zapcore.unmarshalText (ToLower (Level conf))); [done|].
    by inversion He.
Qed.

Lemma configToZapConfig_level_witness :
  ∃ cfg err st' a,
    configToZapConfig ascii_ToLower
      {| Encoding := "console"; OutputPaths := ["stderr"]; Level := "";
         InitialFields := None |} root_state = Some ((cfg, err), st')
    ∧ zap.l (zap.Level cfg) = Some a
    ∧ err = None ∧ levels st' !! a = Some 0%Z.
Proof.
  destruct (configToZapConfig_level ascii_ToLower
              {| Encoding := "console"; OutputPaths := ["stderr"]; Level := "";
                 InitialFields := None |} root_state)
    as (cfg & err & st' & a & Hrun & Ha & _ & _ & _ & _ & Hempty & _).
  destruct (Hempty eq_refl) as [He Hc].
  exists cfg, err, st', a. split; [exact Hrun|]. split; [exact Ha|].
  split; [exact He | exact Hc].
Defined.

(** ** Generated identifiers *)

Lemma String_inj (a a' : ascii) (s s' : string) :
  String a s = String a' s' → a = a' ∧ s = s'.
Proof. intros H. by inversion H. Qed.

(** A byte is determined by its two hexadecimal digits. *)
Lemma byte_of_hex (b b' : Z) :
  (0 ≤ b < 256)%Z → (0 ≤ b' < 256)%Z →
  uuid.hexdigit (Z.shiftr b 4) = uuid.hexdigit (Z.shiftr b' 4) →
  uuid.hexdigit (Z.land b 15) = uuid.hexdigit (Z.land b' 15) →
  b = b'.
Proof.
  intros Hb Hb' Hhi Hlo.
  pose proof (Z_range_forall
    (λ b, forallb (λ b',
       implb (Ascii.eqb (uuid.hexdigit (Z.shiftr b 4))
                        (uuid.hexdigit (Z.shiftr b' 4))
              && Ascii.eqb (uuid.hexdigit (Z.land b 15))
                           (uuid.hexdigit (Z.land b' 15)))
             (b =? b')%Z) (map Z.of_nat (seq 0 256))) 256) as Hall.
  specialize (Hall ltac:(vm_compute; reflexivity) b Hb).
  rewrite forallb_forall in Hall.
  assert (In b' (map Z.of_nat (seq 0 256))) as Hin.
  { apply in_map_iff. exists (Z.to_nat b'). split; [lia|]. apply in_seq. lia. }
  specialize (Hall b' Hin). clear Hin.
  rewrite Hhi, Hlo, !Ascii.eqb_refl in Hall. cbn [andb implb] in Hall.
  by apply Z.eqb_eq.
Qed.

Lemma version_byte_range b :
  (0 ≤ b < 256)%Z → (0 ≤ Z.lor (Z.land b 15) 64 < 256)%Z.
Proof.
  intros Hb.
  pose proof (Z_range_forall
    (λ b, (0 <=? Z.lor (Z.land b 15) 64)%Z && (Z.lor (Z.land b 15) 64 <? 256)%Z)
    256 ltac:(vm_compute; reflexivity) b Hb) as H.
  apply andb_true_iff in H as [H1 H2]. lia.
Qed.

Lemma variant_byte_range b :
  (0 ≤ b < 256)%Z → (0 ≤ Z.lor (Z.land b 63) 128 < 256)%Z.
Proof.
  intros Hb.
  pose proof (Z_range_forall
    (λ b, (0 <=? Z.lor (Z.land b 63) 128)%Z
          && (Z.lor (Z.land b 63) 128 <? 256)%Z)
    256 ltac:(vm_compute; reflexivity) b Hb) as H.
  apply andb_true_iff in H as [H1 H2]. lia.
Qed.

(** The text of a generated identifier determines its sixteen bytes. *)
Lemma uuid_String_New_inj rnd1 rnd2 :
  uuid.String (uuid.New rnd1) = uuid.String (uuid.New rnd2) →
  uuid.New rnd1 = uuid.New rnd2.
Proof.
  unfold uuid.New, uuid.read16, uuid.String. cbn [map seq].
  cbn [uuid.hex_Encode take drop uuid.set_byte lookup list_lookup insert
       list_insert].
  cbv [String.append]. intros H.
  repeat match type of H with
         | String _ _ = String _ _ => apply String_inj in H as [? H]
         end.
  repeat (apply (f_equal2 cons);
          [apply byte_of_hex;
           auto using land_255_range, version_byte_range, variant_byte_range|]).
  reflexivity.
Qed.

(** X14. Two requests without a request ID get different request IDs
    as soon as the random source differs in one of the fourteen bytes
    that are kept whole; and requests get the same generated ID only if
    the sixteen bytes of the two identifiers agree. *)
Theorem generated_request_ids_differ (rnd1 rnd2 : nat → Z)
  (ctx1 ctx2 : context.Context) (req1 req2 : http.Request) (i : nat) :
  getRequestID req1 = "" → getRequestID req2 = "" →
  (i < 16)%nat → i ≠ 6%nat → i ≠ 8%nat →
  Z.land (rnd1 i) 255 ≠ Z.land (rnd2 i) 255 →
  context.Value (WithRequest rnd1 ctx1 req1) requestIDKey
    ≠ context.Value (WithRequest rnd2 ctx2 req2) requestIDKey
  ∧ (∀ r1 r2,
       context.Value (WithRequest r1 ctx1 req1) requestIDKey
         = context.Value (WithRequest r2 ctx2 req2) requestIDKey →
       uuid.New r1 = uuid.New r2).
Proof.
  intros H1 H2 Hi H6 H8 Hne.
  assert (∀ r1 r2,
       context.Value (WithRequest r1 ctx1 req1) requestIDKey
         = context.Value (WithRequest r2 ctx2 req2) requestIDKey →
       uuid.New r1 = uuid.New r2) as Hinj.
  { intros r1 r2. rewrite !WithRequest_Value_request, H1, H2.
    change (bool_decide ("" = "")) with true. cbv iota.
    intros Heq. apply uuid_String_New_inj. congruence. }
  split; [|exact Hinj].
  intros Heq. apply Hinj in Heq. apply Hne.
  unfold uuid.New, uuid.read16 in Heq. cbn [map seq] in Heq.
  cbn [uuid.set_byte lookup list_lookup insert list_insert] in Heq.
  do 16 (destruct i as [|i]; [by inversion Heq|]). lia.
Qed.

Lemma generated_request_ids_differ_witness :
  context.Value
    (WithRequest sample_rnd context.Background (request_with []))
    requestIDKey
  ≠ context.Value
      (WithRequest (λ i, Z.of_nat (i + 1)) older_ctx (request_with []))
      requestIDKey.
Proof.
  apply (generated_request_ids_differ sample_rnd (λ i, Z.of_nat (i + 1))
           context.Background older_ctx (request_with []) (request_with [])
           0%nat); try reflexivity; try lia; try discriminate.
Defined.
